(** * FRAM_FM24CXX_I2C: a shallow embedding of the driver and of its bus

    The driver [src/FRAM_FM24CXX_I2C.cpp] talks to the chip through the
    Arduino [Wire] transport and drives the write-protect pin through GPIO.
    The transport is abstracted as a type class [Bus] over a state type:
    every [Wire] call is a state transformer, so a driver operation is a
    function [B -> result * B].  An operation that performs no bus call
    returns the state it was given, for every instance of the class.

    The width of the C [int] matters in the range check
    [framAddr + (uint16_t) items - 1]: with a 16-bit [int] (AVR boards) the
    two [uint16_t] operands promote to [unsigned int] and the arithmetic
    wraps modulo 65536; with a 32-bit [int] they promote to [int] and no
    wrap happens.  Every operation takes the flag [int16] for this. *)

From Stdlib Require Import ZArith List Bool Lia.
Import ListNotations.
Open Scope Z_scope.

(** ** Constants of [FRAM_FM24CXX_I2C.h] *)

Definition MAXADDRESS_04 : Z := 512.
Definition MANAGE_WP : bool := false.

Definition ERROR_0 : Z := 0.
Definition ERROR_1 : Z := 1.
Definition ERROR_2 : Z := 2.
Definition ERROR_3 : Z := 3.
Definition ERROR_4 : Z := 4.
Definition ERROR_8 : Z := 8.
Definition ERROR_9 : Z := 9.
Definition ERROR_10 : Z := 10.
Definition ERROR_11 : Z := 11.

Definition HIGH : Z := 1.
Definition LOW : Z := 0.
Definition OUTPUT : Z := 1.

(** Store into a [uint8_t]. *)
Definition u8 (z : Z) : Z := Z.land z 255.

(** Arduino's [bitRead], [bitSet] and [bitClear] on a [uint8_t] lvalue. *)
Definition bitRead (x n : Z) : Z := Z.land (Z.shiftr x n) 1.
Definition bitSet (x n : Z) : Z := u8 (Z.lor x (Z.shiftl 1 n)).
Definition bitClear (x n : Z) : Z := u8 (Z.land x (Z.lnot (Z.shiftl 1 n))).

(** The new byte computed by [toggleBit]:
    [if ((buffer[0] & (1 << bitNb)) == (1 << bitNb)) bitClear(...);
     else bitSet(...);] *)
Definition toggled (b0 bitNb : Z) : Z :=
  if Z.land b0 (Z.shiftl 1 bitNb) =? Z.shiftl 1 bitNb
  then bitClear b0 bitNb else bitSet b0 bitNb.

(** ** The object *)

(** The data members of class [FRAM_FM24CXX_I2C]. *)
Record FRAM := mkFRAM {
  i2c_addr : Z;
  wpPin : Z;
  wpStatus : bool
}.

(** ** The Arduino [Wire] transport *)

Class Bus (B : Type) := {
  beginTransmission : Z -> B -> B;
  wire_write : Z -> B -> B;
  endTransmission : B -> Z * B;
  requestFrom : Z -> Z -> B -> Z * B;
  wire_read : B -> Z * B
}.

(** ** GPIO for the write-protect pin *)

Inductive gpio_event :=
| PinMode (pin mode : Z)
| DigitalWrite (pin level : Z).

Definition gpio := list gpio_event.

Definition pinMode (pin mode : Z) (g : gpio) : gpio := g ++ [PinMode pin mode].
Definition digitalWrite (pin level : Z) (g : gpio) : gpio :=
  g ++ [DigitalWrite pin level].

Section Driver.

Context {B : Type} `{Bus B}.
Variable int16 : bool.

(** [(framAddr >= MAXADDRESS_04) || ((framAddr + (uint16_t) items - 1)
    >= MAXADDRESS_04)], the guard shared by [writeArray] and
    [readArray]. *)
Definition out_of_range (framAddr items : Z) : bool :=
  let last := framAddr + items - 1 in
  let last := if int16 then last mod 65536 else last in
  (MAXADDRESS_04 <=? framAddr) || (MAXADDRESS_04 <=? last).

(** [i2c_addr | ((framAddr >> 8) & 0x1)] *)
Definition selector (self : FRAM) (framAddr : Z) : Z :=
  Z.lor (i2c_addr self) (Z.land (Z.shiftr framAddr 8) 1).

(** [for (byte i=0; i < items ; i++) Wire.write(values[i]);] *)
Fixpoint write_loop (i : nat) (n : nat) (values : list Z) (s : B) : B :=
  match n with
  | O => s
  | S n' => write_loop (S i) n' values (wire_write (nth i values 0) s)
  end.

Definition writeArray (self : FRAM) (framAddr items : Z) (values : list Z)
    (s : B) : Z * B :=
  if out_of_range framAddr items then (ERROR_11, s)
  else
    let s := beginTransmission (selector self framAddr) s in
    let s := wire_write (Z.land framAddr 255) s in
    let s := write_loop 0 (Z.to_nat items) values s in
    endTransmission s.

Definition writeByte (self : FRAM) (framAddr value : Z) (s : B) : Z * B :=
  writeArray self framAddr 1 [value] s.

(** [for (byte i=0; i < items; i++) values[i] = Wire.read();] *)
Fixpoint read_loop (i : nat) (n : nat) (values : list Z) (s : B)
    : list Z * B :=
  match n with
  | O => (values, s)
  | S n' =>
      let (r, s) := wire_read s in
      read_loop (S i) n' (firstn i values ++ [u8 r] ++ skipn (S i) values) s
  end.

(** The out-parameter [values[]] is passed in and returned updated. *)
Definition readArray (self : FRAM) (framAddr items : Z) (values : list Z)
    (s : B) : (Z * list Z) * B :=
  if out_of_range framAddr items then ((ERROR_11, values), s)
  else if items =? 0 then ((ERROR_8, values), s)
  else
    let s := beginTransmission (selector self framAddr) s in
    let s := wire_write (Z.land framAddr 255) s in
    let (result, s) := endTransmission s in
    let (_, s) := requestFrom (i2c_addr self) items s in
    let (values, s) := read_loop 0 (Z.to_nat items) values s in
    ((result, values), s).

(** The local [uint8_t buffer[1]] of the byte and bit operations is not
    initialised; [uninit] is its prior content. *)
Variable uninit : Z.

Definition readByte (self : FRAM) (framAddr : Z) (s : B)
    : (Z * Z) * B :=
  let '((result, buffer), s) := readArray self framAddr 1 [uninit] s in
  ((result, nth 0 buffer uninit), s).

Definition readBit (self : FRAM) (framAddr bitNb : Z) (bit : Z) (s : B)
    : (Z * Z) * B :=
  if 7 <? bitNb then ((ERROR_9, bit), s)
  else
    let '((result, buffer), s) := readArray self framAddr 1 [uninit] s in
    ((result, bitRead (nth 0 buffer uninit) bitNb), s).

Definition setOneBit (self : FRAM) (framAddr bitNb : Z) (s : B) : Z * B :=
  if 7 <? bitNb then (ERROR_9, s)
  else
    let '((_, buffer), s) := readArray self framAddr 1 [uninit] s in
    let b := bitSet (nth 0 buffer uninit) bitNb in
    writeArray self framAddr 1 [b] s.

Definition clearOneBit (self : FRAM) (framAddr bitNb : Z) (s : B) : Z * B :=
  if 7 <? bitNb then (ERROR_9, s)
  else
    let '((_, buffer), s) := readArray self framAddr 1 [uninit] s in
    let b := bitClear (nth 0 buffer uninit) bitNb in
    writeArray self framAddr 1 [b] s.

Definition toggleBit (self : FRAM) (framAddr bitNb : Z) (s : B) : Z * B :=
  if 7 <? bitNb then (ERROR_9, s)
  else
    let '((_, buffer), s) := readArray self framAddr 1 [uninit] s in
    let b := toggled (nth 0 buffer uninit) bitNb in
    writeArray self framAddr 1 [b] s.

(** [while((i < MAXADDRESS_04) && (result == 0)) { result =
    writeByte(i, 0x00); i++; }]; [n] bounds the iterations left, and the
    loop guard fails once [n] is exhausted. *)
Fixpoint erase_loop (self : FRAM) (n : nat) (i result : Z) (s : B) : Z * B :=
  match n with
  | O => (result, s)
  | S n' =>
      if (i <? MAXADDRESS_04) && (result =? 0) then
        let (result, s) := writeByte self i 0 s in
        erase_loop self n' (i + 1) result s
      else (result, s)
  end.

Definition eraseDevice (self : FRAM) (s : B) : Z * B :=
  erase_loop self (Z.to_nat MAXADDRESS_04) 0 0 s.

End Driver.

(** ** Write protection *)

Definition getWPStatus (self : FRAM) : bool := wpStatus self.

Definition set_wpStatus (self : FRAM) (b : bool) : FRAM :=
  mkFRAM (i2c_addr self) (wpPin self) b.

Definition enableWP (self : FRAM) (g : gpio) : Z * FRAM * gpio :=
  if MANAGE_WP then
    let g := digitalWrite (wpPin self) HIGH g in
    (ERROR_0, set_wpStatus self true, g)
  else (ERROR_10, self, g).

Definition disableWP (self : FRAM) (g : gpio) : Z * FRAM * gpio :=
  if MANAGE_WP then
    let g := digitalWrite (wpPin self) LOW g in
    (ERROR_0, set_wpStatus self false, g)
  else (ERROR_10, self, g).

Definition initWP (self : FRAM) (wp : bool) (g : gpio) : Z * FRAM * gpio :=
  if MANAGE_WP then
    let g := pinMode (wpPin self) OUTPUT g in
    if wp then enableWP self g else disableWP self g
  else (ERROR_0, set_wpStatus self false, g).

(** The constructor.  [self0] is the storage of the object before the body
    runs (zero for an object of static storage duration, indeterminate
    otherwise).  In the body, [i2c_addr = i2c_addr;] names the parameter on
    both sides, so the member [i2c_addr] keeps its prior content;
    [chipDensity] is not used. *)
Definition FRAM_FM24CXX_I2C (self0 : FRAM) (i2c_addr_arg : Z) (wp : bool)
    (pin chipDensity : Z) (g : gpio) : FRAM * gpio :=
  let self := mkFRAM (i2c_addr self0) pin (wpStatus self0) in
  let '(_, self, g) := initWP self wp g in
  (self, g).

(** ** A fault-free FM24C04 behind the transport

    A test double for [Wire] with an FM24C04 (512 bytes) on the bus.  It
    answers every selector and every transaction ends with status 0.  As in
    the addressing scheme of the driver, the low bit of the selector of a
    transfer is address bit A8; the first byte written in a transaction is
    the low address byte.  The chip keeps an address latch that advances
    over the 9-bit address space.  Every transport call is recorded in
    [log]. *)

Inductive event :=
| Begin (sel : Z)
| Write (b : Z)
| End
| Request (sel n : Z)
| Read.

Record chip := mkChip {
  mem : Z -> Z;
  latch : Z;
  txsel : Z;
  txbuf : list Z;
  rxbuf : list Z;
  log : list event
}.

Definition upd (m : Z -> Z) (a v : Z) : Z -> Z :=
  fun x => if x =? a then v else m x.

Fixpoint store (a : Z) (data : list Z) (m : Z -> Z) : Z -> Z :=
  match data with
  | [] => m
  | b :: t => store ((a + 1) mod 512) t (upd m a b)
  end.

Fixpoint fetch (a : Z) (n : nat) (m : Z -> Z) : list Z :=
  match n with
  | O => []
  | S n' => m a :: fetch ((a + 1) mod 512) n' m
  end.

(** Full address from the page bit of a selector and a low address byte. *)
Definition full_addr (sel lo : Z) : Z := (sel mod 2) * 256 + lo mod 256.

Definition chip_begin (sel : Z) (c : chip) : chip :=
  mkChip (mem c) (latch c) sel [] (rxbuf c) (log c ++ [Begin sel]).

Definition chip_write (b : Z) (c : chip) : chip :=
  mkChip (mem c) (latch c) (txsel c) (txbuf c ++ [u8 b]) (rxbuf c)
    (log c ++ [Write b]).

Definition chip_end (c : chip) : Z * chip :=
  match txbuf c with
  | [] => (0, mkChip (mem c) (latch c) (txsel c) [] (rxbuf c) (log c ++ [End]))
  | lo :: data =>
      let a := full_addr (txsel c) lo in
      (0, mkChip (store a data (mem c))
            ((a + Z.of_nat (length data)) mod 512) (txsel c) [] (rxbuf c)
            (log c ++ [End]))
  end.

Definition chip_request (sel n : Z) (c : chip) : Z * chip :=
  let a := full_addr sel (latch c) in
  (n, mkChip (mem c) ((a + n) mod 512) (txsel c) (txbuf c)
        (fetch a (Z.to_nat n) (mem c)) (log c ++ [Request sel n])).

Definition chip_read (c : chip) : Z * chip :=
  match rxbuf c with
  | b :: t => (b, mkChip (mem c) (latch c) (txsel c) (txbuf c) t
                    (log c ++ [Read]))
  | [] => (-1, mkChip (mem c) (latch c) (txsel c) (txbuf c) []
                 (log c ++ [Read]))
  end.

#[export] Instance chip_bus : Bus chip := {
  beginTransmission := chip_begin;
  wire_write := chip_write;
  endTransmission := chip_end;
  requestFrom := chip_request;
  wire_read := chip_read
}.

(** A chip between transactions. *)
Definition idle (c : chip) : Prop := txbuf c = [].

(** The bus events of one [writeArray] transaction. *)
Definition write_trace (self : FRAM) (framAddr : Z) (data : list Z)
    : list event :=
  [Begin (selector self framAddr); Write (Z.land framAddr 255)]
    ++ map Write data ++ [End].

Definition zero_chip : chip := mkChip (fun _ => 0) 0 0 [] [] [].
Definition h0 : FRAM := mkFRAM 0 13 false.

(** The erase procedure as the spec words it: write [0x00] with the
    single-byte primitive at each address of [addrs] in turn, stop at the
    first nonzero status and return it, or return 0. *)
Fixpoint erase_spec {B : Type} `{Bus B} (int16 : bool) (self : FRAM)
    (addrs : list Z) (s : B) : Z * B :=
  match addrs with
  | [] => (0, s)
  | a :: t =>
      let (r, s) := writeByte int16 self a 0 s in
      if r =? 0 then erase_spec int16 self t s else (r, s)
  end.

Definition all_addresses : list Z :=
  map Z.of_nat (seq 0 (Z.to_nat MAXADDRESS_04)).

(** The states of the object and of its GPIO reachable from construction:
    no other member function writes the object. *)
Inductive reachable : FRAM -> gpio -> Prop :=
| reach_new self0 addr wp pin chipDensity g :
    reachable (fst (FRAM_FM24CXX_I2C self0 addr wp pin chipDensity g))
              (snd (FRAM_FM24CXX_I2C self0 addr wp pin chipDensity g))
| reach_enable self g r self' g' :
    reachable self g -> enableWP self g = (r, self', g') -> reachable self' g'
| reach_disable self g r self' g' :
    reachable self g -> disableWP self g = (r, self', g') -> reachable self' g'.

(** ** Copy and multi-byte accessors *)

(** Host representation of an unsigned integer of [n] bytes, as
    [reinterpret_cast] sees it: [le_bytes] lists the bytes least
    significant first, [le_value] reads them back; [little_endian] is the
    host byte order (little-endian on every Arduino target). *)
Fixpoint le_bytes (n : nat) (v : Z) : list Z :=
  match n with
  | O => []
  | S n' => v mod 256 :: le_bytes n' (v / 256)
  end.

Fixpoint le_value (bs : list Z) : Z :=
  match bs with
  | [] => 0
  | b :: t => b + 256 * le_value t
  end.

Section Accessors.

Context {B : Type} `{Bus B}.
Variable int16 : bool.
Variable uninit : Z.
Variable little_endian : bool.

Definition host_bytes (n : nat) (v : Z) : list Z :=
  if little_endian then le_bytes n v else rev (le_bytes n v).

Definition host_value (bs : list Z) : Z :=
  if little_endian then le_value bs else le_value (rev bs).

(** [readByte(origAddr, buffer); result = writeByte(destAddr, buffer[0]);]
    The status of the read is overwritten. *)
Definition copyByte (self : FRAM) (origAddr destAddr : Z) (s : B) : Z * B :=
  let '((_, b), s) := readByte int16 uninit self origAddr s in
  writeByte int16 self destAddr b s.

(** [buffer] is the prior content of the local [uint8_t buffer[2]]. *)
Definition readWord (self : FRAM) (framAddr : Z) (buffer : list Z) (s : B)
    : (Z * Z) * B :=
  let '((result, buffer), s) := readArray int16 self framAddr 2 buffer s in
  ((result, host_value buffer), s).

Definition writeWord (self : FRAM) (framAddr value : Z) (s : B) : Z * B :=
  writeArray int16 self framAddr 2 (host_bytes 2 value) s.

(** [buffer] is the prior content of the local [uint8_t buffer[4]]. *)
Definition readLong (self : FRAM) (framAddr : Z) (buffer : list Z) (s : B)
    : (Z * Z) * B :=
  let '((result, buffer), s) := readArray int16 self framAddr 4 buffer s in
  ((result, host_value buffer), s).

Definition writeLong (self : FRAM) (framAddr value : Z) (s : B) : Z * B :=
  writeArray int16 self framAddr 4 (host_bytes 4 value) s.

End Accessors.

Example ex_word :
  fst (readWord false true h0 10 [0; 0]
         (snd (writeWord false true h0 10 4660 zero_chip))) = (0, 4660).
Proof. reflexivity. Qed.

Example ex_long :
  fst (readLong false false h0 100 [0; 0; 0; 0]
         (snd (writeLong false false h0 100 3735928559 zero_chip)))
  = (0, 3735928559).
Proof. reflexivity. Qed.

Example ex_rt :
  fst (readByte false 0 h0 300 (snd (writeByte false h0 300 171 zero_chip)))
  = (0, 0).
Proof. reflexivity. Qed.
Example ex_rt2 :
  fst (readByte false 0 h0 30 (snd (writeByte false h0 30 171 zero_chip)))
  = (0, 171).
Proof. reflexivity. Qed.
Example ex_c4 : fst (readArray true h0 0 0 [] zero_chip) = (11, []).
Proof. reflexivity. Qed.
Example ex_c4' : fst (readArray false h0 0 0 [] zero_chip) = (8, []).
Proof. reflexivity. Qed.

(** ** Facts about the guard, the loops and the test double *)

Section BusFacts.

Context {B : Type} `{Bus B}.

Lemma out_of_range_false (int16 : bool) (a n : Z) :
  0 <= a < MAXADDRESS_04 -> 0 <= n -> a + n - 1 < MAXADDRESS_04 ->
  0 <= a + n - 1 -> out_of_range int16 a n = false.
Proof.
  unfold out_of_range, MAXADDRESS_04; intros.
  destruct int16; cbv beta zeta iota; rewrite ?Z.mod_small by lia;
    apply orb_false_iff; split; apply Z.leb_gt; lia.
Qed.

Lemma out_of_range_true (int16 : bool) (a n : Z) :
  0 <= a <= 65535 -> 1 <= n <= 255 -> MAXADDRESS_04 < a + n ->
  out_of_range int16 a n = true.
Proof.
  unfold out_of_range, MAXADDRESS_04; intros.
  destruct (Z.leb_spec 512 a); [reflexivity|].
  destruct int16; cbv beta zeta iota; rewrite ?Z.mod_small by lia;
    apply orb_true_iff; right; apply Z.leb_le; lia.
Qed.

Lemma skipn_nth_cons (l : list Z) (i : nat) :
  (i < length l)%nat -> skipn i l = nth i l 0 :: skipn (S i) l.
Proof.
  revert i; induction l as [|x l IH]; intros [|i] Hi; simpl in *;
    try lia; [reflexivity|].
  apply IH; lia.
Qed.

Lemma write_loop_fold (i n : nat) (values : list Z) (s : B) :
  (i + n <= length values)%nat ->
  write_loop i n values s
  = fold_left (fun s b => wire_write b s) (firstn n (skipn i values)) s.
Proof.
  revert i s; induction n as [|n IH]; intros i s Hn; [reflexivity|].
  rewrite (skipn_nth_cons values i) by lia.
  simpl; apply IH; lia.
Qed.

End BusFacts.

Section BusFacts2.

Context {B : Type} `{Bus B}.

Lemma writeArray_in_range (int16 : bool) (self : FRAM) (framAddr items : Z)
    (values : list Z) (s : B) :
  0 <= framAddr -> 1 <= items <= 255 -> framAddr + items - 1 < MAXADDRESS_04 ->
  (Z.to_nat items <= length values)%nat ->
  writeArray int16 self framAddr items values s
  = endTransmission
      (fold_left (fun s b => wire_write b s) (firstn (Z.to_nat items) values)
        (wire_write (Z.land framAddr 255)
          (beginTransmission (selector self framAddr) s))).
Proof.
  intros Ha Hn Hr Hl; unfold writeArray.
  rewrite out_of_range_false by (unfold MAXADDRESS_04 in *; lia).
  rewrite write_loop_fold by (simpl; lia); reflexivity.
Qed.

End BusFacts2.

Lemma log_fold_write (l : list Z) (c : chip) :
  log (fold_left (fun s b => chip_write b s) l c) = log c ++ map Write l.
Proof.
  revert c; induction l as [|b l IH]; intros c; simpl.
  - symmetry; apply app_nil_r.
  - rewrite IH; simpl; rewrite <- app_assoc; reflexivity.
Qed.

Lemma fst_end_chip (c : chip) : fst (chip_end c) = 0.
Proof. unfold chip_end; destruct (txbuf c); reflexivity. Qed.

Lemma log_end_chip (c : chip) : log (snd (chip_end c)) = log c ++ [End].
Proof. unfold chip_end; destruct (txbuf c); reflexivity. Qed.

(** Address arithmetic of the FM24C04 double. *)

Lemma u8_mod (z : Z) : u8 z = z mod 256.
Proof. unfold u8; change 255 with (Z.ones 8); apply Z.land_ones; lia. Qed.

Lemma page_bit (a : Z) :
  0 <= a < 512 -> Z.land (Z.shiftr a 8) 1 = a / 256.
Proof.
  intros Ha; change (Z.land (Z.shiftr a 8) 1) with (Z.land (Z.shiftr a 8) (Z.ones 1)).
  rewrite Z.land_ones, Z.shiftr_div_pow2 by lia.
  change (2 ^ 8) with 256; change (2 ^ 1) with 2.
  apply Z.mod_small; split; [apply Z.div_pos | apply Z.div_lt_upper_bound]; lia.
Qed.

Lemma selector_mod2 (int16 : bool) (self : FRAM) (a : Z) :
  i2c_addr self mod 2 = 0 -> 0 <= a < 512 ->
  selector self a mod 2 = a / 256.
Proof.
  intros Hs Ha; unfold selector; rewrite page_bit by lia.
  assert (Hq : a / 256 = 0 \/ a / 256 = 1).
  { assert (0 <= a / 256 < 2) by (split; [apply Z.div_pos | apply Z.div_lt_upper_bound]; lia).
    lia. }
  destruct Hq as [Hq | Hq]; rewrite Hq; [rewrite Z.lor_0_r; exact Hs|].
  rewrite Zmod_odd, <- Z.bit0_odd, Z.lor_spec, orb_comm; reflexivity.
Qed.

Lemma write_addr (self : FRAM) (a : Z) :
  i2c_addr self mod 2 = 0 -> 0 <= a < 512 ->
  full_addr (selector self a) (u8 (Z.land a 255)) = a.
Proof.
  intros Hs Ha; unfold full_addr.
  rewrite (selector_mod2 false) by assumption.
  rewrite u8_mod; change 255 with (Z.ones 8); rewrite Z.land_ones by lia.
  change (2 ^ 8) with 256; rewrite Z.mod_mod by lia.
  Z.div_mod_to_equations; lia.
Qed.

(** [writeByte] and [readByte] on the double, for an address in range. *)

Lemma chip_writeByte (int16 : bool) (self : FRAM) (a v : Z) (c : chip) :
  0 <= a < MAXADDRESS_04 ->
  let a' := full_addr (selector self a) (u8 (Z.land a 255)) in
  writeByte int16 self a v c
  = (0, mkChip (upd (mem c) a' (u8 v)) ((a' + 1) mod 512) (selector self a)
          [] (rxbuf c) (log c ++ write_trace self a [v])).
Proof.
  intros Ha; unfold writeByte, writeArray.
  rewrite out_of_range_false by (unfold MAXADDRESS_04 in *; lia).
  simpl; unfold chip_end, chip_write, chip_begin; simpl.
  unfold write_trace; rewrite <- !app_assoc; reflexivity.
Qed.

Lemma chip_readArray1 (int16 : bool) (self : FRAM) (a u : Z) (c : chip) :
  0 <= a < MAXADDRESS_04 ->
  let a' := full_addr (selector self a) (u8 (Z.land a 255)) in
  fst (readArray int16 self a 1 [u] c)
  = (0, [u8 (mem c (full_addr (i2c_addr self) (a' mod 512)))])
  /\ mem (snd (readArray int16 self a 1 [u] c)) = mem c.
Proof.
  intros Ha; unfold readArray.
  rewrite out_of_range_false by (unfold MAXADDRESS_04 in *; lia).
  simpl; unfold chip_request, chip_read, chip_end, chip_write, chip_begin.
  simpl; rewrite Z.add_0_r; split; reflexivity.
Qed.

(** The read phase: [requestFrom(i2c_addr, ...)] carries the page bit of
    [i2c_addr], not the one of the address. *)
Lemma read_addr (self : FRAM) (a : Z) :
  i2c_addr self mod 2 = 0 -> 0 <= a < 512 ->
  full_addr (i2c_addr self) (a mod 512) = a mod 256.
Proof.
  intros Hs Ha; unfold full_addr; rewrite Hs, (Z.mod_small a 512) by lia.
  reflexivity.
Qed.

Lemma chip_readByte (int16 : bool) (uninit : Z) (self : FRAM) (a : Z)
    (c : chip) :
  i2c_addr self mod 2 = 0 -> 0 <= a < MAXADDRESS_04 ->
  fst (readByte int16 uninit self a c) = (0, u8 (mem c (a mod 256))).
Proof.
  intros Hs Ha; unfold readByte.
  destruct (chip_readArray1 int16 self a uninit c Ha) as [E _].
  destruct (readArray int16 self a 1 [uninit] c) as [[r buf] c'].
  simpl in E; injection E as -> ->; simpl.
  rewrite write_addr, read_addr by (unfold MAXADDRESS_04 in *; lia).
  reflexivity.
Qed.

Lemma chip_toggleBit (int16 : bool) (uninit : Z) (self : FRAM) (a i : Z)
    (c : chip) :
  i2c_addr self mod 2 = 0 -> 0 <= a < MAXADDRESS_04 -> 0 <= i <= 7 ->
  mem (snd (toggleBit int16 uninit self a i c))
  = upd (mem c) a (u8 (toggled (u8 (mem c (a mod 256))) i)).
Proof.
  intros Hs Ha Hi; unfold toggleBit.
  replace (7 <? i) with false by (symmetry; apply Z.ltb_ge; lia).
  destruct (chip_readArray1 int16 self a uninit c Ha) as [E M].
  destruct (readArray int16 self a 1 [uninit] c) as [[r buf] c'].
  simpl in E, M; injection E as -> ->.
  change (writeArray int16 self a 1 [?b] c') with (writeByte int16 self a b c').
  rewrite chip_writeByte by assumption; simpl.
  rewrite M, !write_addr, read_addr by (unfold MAXADDRESS_04 in *; lia).
  reflexivity.
Qed.

Lemma existsb_all_addresses (x : Z) :
  0 <= x < MAXADDRESS_04 -> existsb (Z.eqb x) all_addresses = true.
Proof.
  intros Hx; apply existsb_exists; exists x; split; [|apply Z.eqb_refl].
  unfold all_addresses; apply in_map_iff; exists (Z.to_nat x); split.
  - apply Z2Nat.id; lia.
  - apply in_seq; unfold MAXADDRESS_04 in *; lia.
Qed.

Lemma erase_loop_spec {B : Type} `{Bus B} (int16 : bool) (self : FRAM)
    (n j : nat) (s : B) :
  (j + n = 512)%nat ->
  erase_loop int16 self n (Z.of_nat j) 0 s
  = erase_spec int16 self (map Z.of_nat (seq j n)) s.
Proof.
  revert j s; induction n as [|n IH]; intros j s Hj; [reflexivity|].
  simpl erase_loop; simpl seq; simpl map; simpl erase_spec.
  assert (Hlt : (Z.of_nat j <? MAXADDRESS_04) = true)
    by (apply Z.ltb_lt; unfold MAXADDRESS_04; lia).
  rewrite Hlt; simpl andb; cbv iota.
  destruct (writeByte int16 self (Z.of_nat j) 0 s) as [r s'].
  destruct (Z.eqb_spec r 0) as [-> | Hr].
  - rewrite <- IH by lia; rewrite Nat2Z.inj_succ, <- Z.add_1_r; reflexivity.
  - destruct n; simpl; [reflexivity|].
    apply Z.eqb_neq in Hr; rewrite Hr, andb_false_r; reflexivity.
Qed.

Lemma chip_erase_spec (int16 : bool) (self : FRAM) (addrs : list Z)
    (c : chip) :
  i2c_addr self mod 2 = 0 ->
  Forall (fun a => 0 <= a < MAXADDRESS_04) addrs ->
  fst (erase_spec int16 self addrs c) = 0
  /\ log (snd (erase_spec int16 self addrs c))
     = log c ++ flat_map (fun a => write_trace self a [0]) addrs
  /\ forall x, mem (snd (erase_spec int16 self addrs c)) x
     = if existsb (Z.eqb x) addrs then 0 else mem c x.
Proof.
  intros Hs; revert c; induction addrs as [|a t IH]; intros c Hf.
  - simpl; rewrite app_nil_r; repeat split.
  - inversion Hf as [|? ? Ha Ht]; subst.
    simpl erase_spec; rewrite chip_writeByte by assumption.
    change (0 =? 0) with true; cbv iota beta.
    match goal with |- context [erase_spec _ _ t ?c1] =>
      destruct (IH c1 Ht) as (R & L & M) end.
    split; [exact R|split].
    + rewrite L; simpl; rewrite <- app_assoc; reflexivity.
    + intros x; rewrite M; simpl; rewrite write_addr by (unfold MAXADDRESS_04 in *; lia).
      unfold upd; destruct (Z.eqb x a), (existsb (Z.eqb x) t); reflexivity.
Qed.

Lemma out_of_range_iff (int16 : bool) (a n : Z) :
  0 <= a <= 65535 -> 1 <= n <= 255 ->
  out_of_range int16 a n = (MAXADDRESS_04 <? a + n).
Proof.
  intros Ha Hn; destruct (Z.ltb_spec MAXADDRESS_04 (a + n)).
  - apply out_of_range_true; assumption.
  - apply out_of_range_false; unfold MAXADDRESS_04 in *; lia.
Qed.

(** * The claims *)

Section Claims.

Context {B : Type} `{Bus B}.

(** C1: a request with [addr + length > capacity] ([1 <= length <= 255])
    makes both [writeArray] and [readArray] return [ERROR_11]
    (AddressOutOfRange) and leaves the transport untouched: the bus state
    comes back unchanged, for every transport. *)
Theorem out_of_range_no_bus (int16 : bool) (self : FRAM)
    (framAddr items : Z) (values buf : list Z) (s : B) :
  0 <= framAddr <= 65535 -> 1 <= items <= 255 ->
  MAXADDRESS_04 < framAddr + items ->
  writeArray int16 self framAddr items values s = (ERROR_11, s)
  /\ readArray int16 self framAddr items buf s = ((ERROR_11, buf), s).
Proof.
  intros Ha Hn Hr; unfold writeArray, readArray.
  rewrite out_of_range_true by assumption; split; reflexivity.
Qed.

(** C3: an in-range [writeArray] is exactly one transaction: begin with
    selector [i2c_addr | ((addr >> 8) & 0x1)], write [addr & 0xFF], write
    the [items] data bytes in order, end; the status of the end of the
    transaction is returned as it is.  On the recording test double the
    log grows by exactly these events. *)
Theorem writeArray_one_transaction (int16 : bool) (self : FRAM)
    (framAddr items : Z) (values : list Z) (s : B) :
  0 <= framAddr -> 1 <= items <= 255 -> framAddr + items - 1 < MAXADDRESS_04 ->
  (Z.to_nat items <= length values)%nat ->
  writeArray int16 self framAddr items values s
  = endTransmission
      (fold_left (fun s b => wire_write b s) (firstn (Z.to_nat items) values)
        (wire_write (Z.land framAddr 255)
          (beginTransmission
             (Z.lor (i2c_addr self) (Z.land (Z.shiftr framAddr 8) 1)) s)))
  /\ forall c : chip,
       log (snd (writeArray int16 self framAddr items values c))
       = log c ++ write_trace self framAddr (firstn (Z.to_nat items) values).
Proof.
  intros Ha Hn Hr Hl; split.
  - apply writeArray_in_range; assumption.
  - intros c; rewrite writeArray_in_range by assumption.
    simpl; rewrite log_end_chip.
    change (fun (s : chip) (b : Z) => wire_write b s)
      with (fun (s : chip) (b : Z) => chip_write b s).
    rewrite log_fold_write; simpl.
    unfold write_trace; rewrite <- !app_assoc; reflexivity.
Qed.

(** C4: on a board with a 16-bit [int] (AVR), [readArray(0, 0, out)]
    returns [ERROR_11] (AddressOutOfRange), not [ERROR_8] (EmptyRequest):
    [0 + 0 - 1] wraps to 65535 in [unsigned int] and fails the range
    guard. *)
Theorem readArray_empty_at_0_avr (self : FRAM) (buf : list Z) (s : B) :
  readArray true self 0 0 buf s = ((ERROR_11, buf), s).
Proof. reflexivity. Qed.

(** C5: for an in-range [readArray] of at least one byte, the returned
    status is the status of the end of the address phase, whatever the
    read phase ([requestFrom] and [Wire.read]) does. *)
Theorem readArray_status_address_phase (int16 : bool) (self : FRAM)
    (framAddr items : Z) (buf : list Z) (s : B) :
  0 <= framAddr -> 1 <= items <= 255 -> framAddr + items - 1 < MAXADDRESS_04 ->
  fst (fst (readArray int16 self framAddr items buf s))
  = fst (endTransmission
           (wire_write (Z.land framAddr 255)
              (beginTransmission (selector self framAddr) s))).
Proof.
  intros Ha Hn Hr; unfold readArray.
  rewrite out_of_range_false by (unfold MAXADDRESS_04 in *; lia).
  replace (items =? 0) with false by (symmetry; apply Z.eqb_neq; lia).
  destruct (endTransmission _) as [result s1].
  destruct (requestFrom _ _ s1) as [n s2].
  destruct (read_loop _ _ _ s2); reflexivity.
Qed.

(** C7: with [bitNb > 7], [readBit], [setOneBit], [clearOneBit] and
    [toggleBit] return [ERROR_9] (BitIndexOutOfRange), leave [*bit] and
    the bus state unchanged: no transaction, no memory change. *)
Theorem bit_index_out_of_range (int16 : bool) (uninit : Z) (self : FRAM)
    (framAddr bitNb bit : Z) (s : B) :
  7 < bitNb ->
  readBit int16 uninit self framAddr bitNb bit s = ((ERROR_9, bit), s)
  /\ setOneBit int16 uninit self framAddr bitNb s = (ERROR_9, s)
  /\ clearOneBit int16 uninit self framAddr bitNb s = (ERROR_9, s)
  /\ toggleBit int16 uninit self framAddr bitNb s = (ERROR_9, s).
Proof.
  intros Hb; unfold readBit, setOneBit, clearOneBit, toggleBit.
  rewrite (proj2 (Z.ltb_lt 7 bitNb) Hb); repeat split.
Qed.

(** C6: [eraseDevice] is the loop of the spec over any transport: it
    writes [0x00] with [writeByte] at addresses 0, 1, ..., 511 in
    ascending order, stops at the first nonzero status and returns it.
    On the fault-free double, for a base selector whose page bit is clear
    (as for every FM24C04 base 1010 A2 A1 0), it returns 0, the bus sees
    exactly the 512 single-byte write transactions in order, and then
    every byte is 0x00 and reads as 0x00. *)
Theorem eraseDevice_erases (int16 : bool) (uninit : Z) (self : FRAM) :
  (forall s : B, eraseDevice int16 self s = erase_spec int16 self all_addresses s)
  /\ (i2c_addr self mod 2 = 0 ->
      forall c : chip,
        fst (eraseDevice int16 self c) = 0
        /\ log (snd (eraseDevice int16 self c))
           = log c ++ flat_map (fun a => write_trace self a [0]) all_addresses
        /\ forall a, 0 <= a < MAXADDRESS_04 ->
             mem (snd (eraseDevice int16 self c)) a = 0
             /\ fst (readByte int16 uninit self a (snd (eraseDevice int16 self c)))
                = (0, 0)).
Proof.
  assert (Hspec : forall (B' : Type) (H' : Bus B') (s : B'),
             eraseDevice int16 self s = erase_spec int16 self all_addresses s).
  { intros B' H' s; unfold eraseDevice, all_addresses.
    apply (erase_loop_spec int16 self _ 0); reflexivity. }
  split; [apply Hspec|].
  intros Hs c; rewrite Hspec.
  assert (Hf : Forall (fun a => 0 <= a < MAXADDRESS_04) all_addresses).
  { apply Forall_forall; intros x Hx; unfold all_addresses in Hx.
    apply in_map_iff in Hx; destruct Hx as (k & <- & Hk).
    apply in_seq in Hk; unfold MAXADDRESS_04 in *; simpl in Hk; lia. }
  destruct (chip_erase_spec int16 self all_addresses c Hs Hf) as (R & L & M).
  split; [exact R|split; [exact L|]].
  intros a Ha.
  assert (Z0 : forall x, 0 <= x < MAXADDRESS_04 ->
                 mem (snd (erase_spec int16 self all_addresses c)) x = 0).
  { intros x Hx; rewrite M, existsb_all_addresses by assumption; reflexivity. }
  split; [apply Z0; assumption|].
  rewrite chip_readByte, Z0 by (unfold MAXADDRESS_04 in *;
    try split; try apply Z.mod_pos_bound; try (apply Z.lt_trans with 256;
    [apply Z.mod_pos_bound|]); lia).
  reflexivity.
Qed.

End Claims.

(** C2: on the fault-free double, with the page bit of the base selector
    clear, [writeByte(a, v)] at an address of the upper page
    ([256 <= a < 512]) returns 0, but the following [readByte(a)] returns
    the byte at [a - 256]: the read phase [requestFrom(i2c_addr, 1)] drops
    the page bit that the address phase [beginTransmission(i2c_addr |
    ((framAddr >> 8) & 0x1))] carries. *)
Theorem writeByte_readByte_upper_page (int16 : bool) (uninit : Z)
    (self : FRAM) (a v : Z) (c : chip) :
  i2c_addr self mod 2 = 0 -> 256 <= a < MAXADDRESS_04 ->
  fst (writeByte int16 self a v c) = 0
  /\ fst (readByte int16 uninit self a (snd (writeByte int16 self a v c)))
     = (0, u8 (mem c (a - 256))).
Proof.
  intros Hs Ha.
  assert (Ha' : 0 <= a < MAXADDRESS_04) by lia.
  rewrite chip_writeByte by assumption; split; [reflexivity|].
  rewrite chip_readByte by assumption; simpl.
  rewrite write_addr by (unfold MAXADDRESS_04 in *; lia).
  replace (a mod 256) with (a - 256)
    by (unfold MAXADDRESS_04 in *; Z.div_mod_to_equations; lia).
  unfold upd; replace (a - 256 =? a) with false
    by (symmetry; apply Z.eqb_neq; lia).
  reflexivity.
Qed.

Lemma writeByte_readByte_upper_page_witness :
  fst (readByte false 0 h0 256 (snd (writeByte false h0 256 171 zero_chip)))
  = (0, 0).
Proof.
  destruct (writeByte_readByte_upper_page false 0 h0 256 171 zero_chip
              eq_refl ltac:(unfold MAXADDRESS_04; lia)) as [_ E].
  exact E.
Defined.

(** C8: on the fault-free double, with the page bit of the base selector
    clear, [toggleBit(a, i)] at an address of the upper page stores at [a]
    the toggled copy of the byte at [a - 256]; a second [toggleBit(a, i)]
    stores the same byte again instead of restoring the original one. *)
Theorem toggleBit_upper_page (int16 : bool) (uninit : Z) (self : FRAM)
    (a i : Z) (c : chip) :
  i2c_addr self mod 2 = 0 -> 256 <= a < MAXADDRESS_04 -> 0 <= i <= 7 ->
  mem (snd (toggleBit int16 uninit self a i c)) a
  = u8 (toggled (u8 (mem c (a - 256))) i)
  /\ mem (snd (toggleBit int16 uninit self a i
                 (snd (toggleBit int16 uninit self a i c)))) a
     = mem (snd (toggleBit int16 uninit self a i c)) a.
Proof.
  intros Hs Ha Hi.
  assert (Ha' : 0 <= a < MAXADDRESS_04) by lia.
  assert (Hm : a mod 256 = a - 256)
    by (unfold MAXADDRESS_04 in *; Z.div_mod_to_equations; lia).
  rewrite !chip_toggleBit by assumption.
  unfold upd; rewrite Z.eqb_refl, Hm.
  replace (a - 256 =? a) with false by (symmetry; apply Z.eqb_neq; lia).
  split; reflexivity.
Qed.

Lemma toggleBit_upper_page_witness :
  mem (snd (toggleBit false 0 h0 256 0 zero_chip)) 256 = 1
  /\ mem (snd (toggleBit false 0 h0 256 0
                 (snd (toggleBit false 0 h0 256 0 zero_chip)))) 256 = 1.
Proof.
  destruct (toggleBit_upper_page false 0 h0 256 0 zero_chip eq_refl
              ltac:(unfold MAXADDRESS_04; lia) ltac:(lia)) as [E1 E2].
  rewrite E2, E1; split; reflexivity.
Defined.

(** C9: write protection is unmanaged ([MANAGE_WP] is false):
    [enableWP] and [disableWP] return [ERROR_10] (OperationNotPermitted)
    and change neither the object nor the GPIO, and [getWPStatus] is false
    in every state reachable from construction. *)
Theorem wp_unmanaged (self : FRAM) (g : gpio) :
  enableWP self g = (ERROR_10, self, g)
  /\ disableWP self g = (ERROR_10, self, g)
  /\ (reachable self g -> getWPStatus self = false).
Proof.
  split; [reflexivity|split; [reflexivity|]].
  induction 1 as [self0 addr wp pin d g0 | s0 g0 r s1 g1 _ IH E
                  | s0 g0 r s1 g1 _ IH E].
  - reflexivity.
  - unfold enableWP in E; simpl in E; injection E as <- <- <-; exact IH.
  - unfold disableWP in E; simpl in E; injection E as <- <- <-; exact IH.
Qed.

Lemma wp_unmanaged_witness :
  getWPStatus (fst (FRAM_FM24CXX_I2C (mkFRAM 0 0 true) 80 true 13 512 []))
  = false.
Proof.
  apply (wp_unmanaged
           (fst (FRAM_FM24CXX_I2C (mkFRAM 0 0 true) 80 true 13 512 []))
           (snd (FRAM_FM24CXX_I2C (mkFRAM 0 0 true) 80 true 13 512 []))).
  apply reach_new.
Defined.

(** C10, counterexample: a handle constructed with [chipDensity = 2048]
    rejects [writeArray(1000, 1, ...)] with [ERROR_11] although
    [1000 < 2048]: the capacity is not the [chipDensity] argument. *)
Lemma constructor_density_cex :
  fst (writeArray false
         (fst (FRAM_FM24CXX_I2C (mkFRAM 0 0 false) 80 false 13 2048 []))
         1000 1 [7] zero_chip) = ERROR_11.
Proof. reflexivity. Qed.

(** C10, as the code has it: the constructor does not use [chipDensity];
    the range guard of [writeArray] and [readArray] is the fixed
    [MAXADDRESS_04 = 512] (for [1 <= items <= 255] a request is rejected
    exactly when [framAddr + items > 512]); and no later operation changes
    the selector member [i2c_addr] of the handle.  (What the constructor
    stores in [i2c_addr] is its prior content: the body
    [i2c_addr = i2c_addr;] assigns the parameter to itself.) *)
Theorem constructor_fixed_capacity (self0 : FRAM) (addr : Z) (wp : bool)
    (pin d1 d2 : Z) (g : gpio) :
  FRAM_FM24CXX_I2C self0 addr wp pin d1 g = FRAM_FM24CXX_I2C self0 addr wp pin d2 g
  /\ (forall (int16 : bool) (a n : Z), 0 <= a <= 65535 -> 1 <= n <= 255 ->
        out_of_range int16 a n = (MAXADDRESS_04 <? a + n))
  /\ (forall (self : FRAM) (g' : gpio),
        i2c_addr (snd (fst (enableWP self g'))) = i2c_addr self
        /\ i2c_addr (snd (fst (disableWP self g'))) = i2c_addr self).
Proof.
  split; [reflexivity|split].
  - apply out_of_range_iff.
  - intros self g'; split; reflexivity.
Qed.

Lemma constructor_fixed_capacity_witness :
  out_of_range false 1000 1 = (MAXADDRESS_04 <? 1001).
Proof.
  destruct (constructor_fixed_capacity h0 80 false 13 512 2048 []) as [_ [E _]].
  apply E; lia.
Defined.

Lemma out_of_range_no_bus_witness :
  writeArray false h0 510 3 [1; 2; 3] zero_chip = (ERROR_11, zero_chip)
  /\ readArray false h0 510 3 [] zero_chip = ((ERROR_11, []), zero_chip).
Proof.
  apply (out_of_range_no_bus false h0 510 3 [1; 2; 3] [] zero_chip);
    unfold MAXADDRESS_04; lia.
Defined.

Lemma writeArray_one_transaction_witness :
  log (snd (writeArray false h0 300 2 [5; 6] zero_chip))
  = write_trace h0 300 [5; 6].
Proof.
  destruct (writeArray_one_transaction false h0 300 2 [5; 6] zero_chip
              ltac:(lia) ltac:(lia) ltac:(unfold MAXADDRESS_04; lia)
              ltac:(simpl; lia)) as [_ E].
  apply E.
Defined.

Lemma readArray_status_address_phase_witness :
  fst (fst (readArray false h0 10 4 [] zero_chip)) = 0.
Proof.
  rewrite (readArray_status_address_phase false h0 10 4 [] zero_chip
             ltac:(lia) ltac:(lia) ltac:(unfold MAXADDRESS_04; lia)).
  reflexivity.
Defined.

Lemma bit_index_out_of_range_witness :
  toggleBit false 0 h0 3 8 zero_chip = (ERROR_9, zero_chip).
Proof.
  destruct (bit_index_out_of_range false 0 h0 3 8 0 zero_chip ltac:(lia))
    as (_ & _ & _ & E).
  exact E.
Defined.

Lemma eraseDevice_erases_witness :
  fst (eraseDevice false h0 zero_chip) = 0.
Proof.
  destruct (eraseDevice_erases false 0 h0) as [_ E].
  destruct (E eq_refl zero_chip) as [R _].
  exact R.
Defined.

(** * Further properties of the driver *)

(** ** Multi-byte transfers on the test double *)

Lemma u8_byte (x : Z) : 0 <= x < 256 -> u8 x = x.
Proof. intros; rewrite u8_mod; apply Z.mod_small; assumption. Qed.

Lemma fold_write_chip (l : list Z) (c : chip) :
  fold_left (fun s b => chip_write b s) l c
  = mkChip (mem c) (latch c) (txsel c) (txbuf c ++ map u8 l) (rxbuf c)
      (log c ++ map Write l).
Proof.
  revert c; induction l as [|b l IH]; intros c; simpl.
  - rewrite !app_nil_r; destruct c; reflexivity.
  - rewrite IH; simpl; rewrite <- !app_assoc; reflexivity.
Qed.

Lemma store_outside (data : list Z) (a : Z) (m : Z -> Z) (x : Z) :
  0 <= a -> a + Z.of_nat (length data) <= 512 ->
  x < a \/ a + Z.of_nat (length data) <= x ->
  store a data m x = m x.
Proof.
  revert a m; induction data as [|b t IH]; intros a m Ha Hl Hx; [reflexivity|].
  simpl length in *; simpl store.
  destruct t as [|b' t'].
  - simpl; unfold upd; replace (x =? a) with false
      by (symmetry; apply Z.eqb_neq; lia); reflexivity.
  - simpl length in *.
    rewrite Z.mod_small by lia.
    rewrite IH by (simpl length; lia).
    unfold upd; replace (x =? a) with false
      by (symmetry; apply Z.eqb_neq; lia); reflexivity.
Qed.

Lemma fetch_store (data : list Z) (a : Z) (m : Z -> Z) :
  0 <= a -> a + Z.of_nat (length data) <= 512 ->
  fetch a (length data) (store a data m) = data.
Proof.
  revert a m; induction data as [|b t IH]; intros a m Ha Hl; [reflexivity|].
  simpl length in *; simpl fetch; simpl store.
  destruct t as [|b' t'].
  - simpl; unfold upd; rewrite Z.eqb_refl; reflexivity.
  - simpl length in *; rewrite Z.mod_small by lia.
    rewrite IH by (simpl length; lia).
    rewrite store_outside by (simpl length; lia).
    unfold upd; rewrite Z.eqb_refl; reflexivity.
Qed.

Lemma fetch_length (a : Z) (n : nat) (m : Z -> Z) : length (fetch a n m) = n.
Proof. revert a; induction n; intros a; simpl; [reflexivity|now rewrite IHn]. Qed.

Lemma chip_writeArray (int16 : bool) (self : FRAM) (a : Z) (vals : list Z)
    (c : chip) :
  i2c_addr self mod 2 = 0 -> 0 <= a ->
  (1 <= length vals <= 255)%nat -> a + Z.of_nat (length vals) <= 512 ->
  writeArray int16 self a (Z.of_nat (length vals)) vals c
  = (0, mkChip (store a (map u8 vals) (mem c))
          ((a + Z.of_nat (length vals)) mod 512) (selector self a) []
          (rxbuf c) (log c ++ write_trace self a vals)).
Proof.
  intros Hs Ha Hn Hl.
  rewrite writeArray_in_range by (unfold MAXADDRESS_04; lia).
  rewrite Nat2Z.id, firstn_all.
  change (fun (s : chip) (b : Z) => wire_write b s)
    with (fun (s : chip) (b : Z) => chip_write b s).
  rewrite fold_write_chip; simpl.
  unfold chip_end; simpl.
  rewrite write_addr by lia; rewrite length_map.
  unfold write_trace; rewrite <- !app_assoc; reflexivity.
Qed.

Lemma read_loop_chip (n : nat) :
  forall (i : nat) (buf l rest : list Z) (c : chip),
  rxbuf c = l ++ rest -> length l = n -> length buf = (i + n)%nat ->
  fst (read_loop i n buf c) = firstn i buf ++ map u8 l
  /\ mem (snd (read_loop i n buf c)) = mem c.
Proof.
  induction n as [|n IH]; intros i buf l rest c Hr Hl Hb.
  - destruct l; [|discriminate]; simpl.
    rewrite app_nil_r, firstn_all2 by lia; split; reflexivity.
  - destruct l as [|x l]; [discriminate|]; simpl in Hl.
    simpl read_loop; unfold chip_read; rewrite Hr; simpl.
    change (match buf with [] => [] | _ :: l0 => skipn i l0 end)
      with (skipn (S i) buf).
    set (buf' := firstn i buf ++ u8 x :: skipn (S i) buf).
    assert (Hf : length (firstn i buf) = i)
      by (apply firstn_length_le; lia).
    destruct (IH (S i) buf' l rest
                (mkChip (mem c) (latch c) (txsel c) (txbuf c) (l ++ rest)
                   (log c ++ [Read])) eq_refl ltac:(lia)) as [E M].
    { unfold buf'; rewrite length_app; cbn [length]; rewrite length_skipn; lia. }
    rewrite E, M; split; [|reflexivity].
    replace (S i) with (length (firstn i buf) + 1)%nat by lia.
    unfold buf'; rewrite firstn_app_2; simpl.
    rewrite <- app_assoc; reflexivity.
Qed.

Lemma chip_readArray (int16 : bool) (self : FRAM) (a n : Z) (buf : list Z)
    (c : chip) :
  i2c_addr self mod 2 = 0 -> 0 <= a -> 1 <= n <= 255 -> a + n <= 512 ->
  length buf = Z.to_nat n ->
  fst (readArray int16 self a n buf c)
  = (0, map u8 (fetch (a mod 256) (Z.to_nat n) (mem c)))
  /\ mem (snd (readArray int16 self a n buf c)) = mem c.
Proof.
  intros Hs Ha Hn Hl Hb; unfold readArray.
  rewrite out_of_range_false by (unfold MAXADDRESS_04; lia).
  replace (n =? 0) with false by (symmetry; apply Z.eqb_neq; lia).
  simpl; unfold chip_end, chip_write, chip_begin; simpl.
  unfold chip_request; simpl.
  rewrite Z.add_0_r, write_addr, read_addr by lia.
  match goal with
  | |- context [read_loop 0 ?k buf ?c1] =>
      destruct (read_loop_chip k 0 buf (fetch (a mod 256) k (mem c)) []
                  c1 (eq_sym (app_nil_r _)) (fetch_length _ _ _) Hb) as [E M];
      destruct (read_loop 0 k buf c1) as [vs c2]
  end.
  simpl in E, M |- *; rewrite E, M; split; reflexivity.
Qed.

(** ** Host representation of words *)

Lemma le_value_bytes (n : nat) (v : Z) :
  le_value (le_bytes n v) = v mod 256 ^ Z.of_nat n.
Proof.
  revert v; induction n as [|n IH]; intros v.
  - simpl; rewrite Z.mod_1_r; reflexivity.
  - simpl le_bytes; simpl le_value; rewrite IH.
    rewrite Nat2Z.inj_succ, Z.pow_succ_r by lia.
    rewrite Z.rem_mul_r by (try apply Z.pow_pos_nonneg; lia); reflexivity.
Qed.

Lemma le_bytes_length (n : nat) (v : Z) : length (le_bytes n v) = n.
Proof. revert v; induction n; intros v; simpl; [reflexivity|now rewrite IHn]. Qed.

Lemma le_bytes_bytes (n : nat) (v : Z) :
  Forall (fun x => 0 <= x < 256) (le_bytes n v).
Proof.
  revert v; induction n; intros v; simpl; constructor; auto.
  apply Z.mod_pos_bound; lia.
Qed.

Lemma host_roundtrip (little_endian : bool) (n : nat) (v : Z) :
  0 <= v < 256 ^ Z.of_nat n ->
  host_value little_endian (host_bytes little_endian n v) = v
  /\ length (host_bytes little_endian n v) = n
  /\ Forall (fun x => 0 <= x < 256) (host_bytes little_endian n v).
Proof.
  intros Hv; unfold host_value, host_bytes; destruct little_endian.
  - rewrite le_value_bytes, Z.mod_small by lia.
    split; [reflexivity|split; [apply le_bytes_length|apply le_bytes_bytes]].
  - rewrite rev_involutive, le_value_bytes, Z.mod_small by lia.
    split; [reflexivity|split].
    + rewrite length_rev; apply le_bytes_length.
    + apply Forall_rev, le_bytes_bytes.
Qed.

Lemma map_u8_bytes (l : list Z) :
  Forall (fun x => 0 <= x < 256) l -> map u8 l = l.
Proof.
  intros Hl; induction Hl as [|x l Hx Hl IH]; simpl; [reflexivity|].
  rewrite u8_byte, IH by assumption; reflexivity.
Qed.

(** ** Bit operations on a byte, checked over every byte and position *)

Definition zrange (n : nat) : list Z := map Z.of_nat (seq 0 n).

Lemma in_zrange (n : nat) (x : Z) : 0 <= x < Z.of_nat n -> In x (zrange n).
Proof.
  intros Hx; unfold zrange; apply in_map_iff; exists (Z.to_nat x); split.
  - apply Z2Nat.id; lia.
  - apply in_seq; lia.
Qed.

Definition bit_ops_ok (y i j : Z) : bool :=
  (bitRead (u8 (bitSet y i)) i =? 1)
  && (bitRead (u8 (bitClear y i)) i =? 0)
  && (bitRead (u8 (toggled y i)) i =? 1 - bitRead y i)
  && (u8 (toggled (u8 (toggled y i)) i) =? y)
  && ((j =? i)
      || ((bitRead (u8 (bitSet y i)) j =? bitRead y j)
          && (bitRead (u8 (bitClear y i)) j =? bitRead y j)
          && (bitRead (u8 (toggled y i)) j =? bitRead y j))).

Lemma bit_ops_all :
  forallb (fun y => forallb (fun i => forallb (bit_ops_ok y i) (zrange 8))
                      (zrange 8)) (zrange 256) = true.
Proof. vm_compute; reflexivity. Qed.

Lemma bit_ops_spec (y i : Z) :
  0 <= y < 256 -> 0 <= i <= 7 ->
  bitRead (u8 (bitSet y i)) i = 1
  /\ bitRead (u8 (bitClear y i)) i = 0
  /\ bitRead (u8 (toggled y i)) i = 1 - bitRead y i
  /\ u8 (toggled (u8 (toggled y i)) i) = y
  /\ forall j, 0 <= j <= 7 -> j <> i ->
       bitRead (u8 (bitSet y i)) j = bitRead y j
       /\ bitRead (u8 (bitClear y i)) j = bitRead y j
       /\ bitRead (u8 (toggled y i)) j = bitRead y j.
Proof.
  intros Hy Hi.
  pose proof bit_ops_all as A.
  rewrite forallb_forall in A; specialize (A y (in_zrange 256 y ltac:(simpl; lia))).
  rewrite forallb_forall in A; specialize (A i (in_zrange 8 i ltac:(simpl; lia))).
  rewrite forallb_forall in A.
  assert (K : forall j, 0 <= j <= 7 -> bit_ops_ok y i j = true)
    by (intros j Hj; apply A, in_zrange; simpl; lia).
  destruct (andb_prop _ _ (K i Hi)) as [K1 _].
  repeat rewrite andb_true_iff in K1.
  destruct K1 as [[[K1 K2] K3] K4]; apply Z.eqb_eq in K1, K2, K3, K4.
  split; [exact K1|split; [exact K2|split; [exact K3|split; [exact K4|]]]].
  intros j Hj Hji; specialize (K j Hj); unfold bit_ops_ok in K.
  rewrite (proj2 (Z.eqb_neq j i) Hji) in K.
  destruct (andb_prop _ _ K) as [_ K']; rewrite orb_false_l in K'.
  repeat rewrite andb_true_iff in K'.
  destruct K' as [[L1 L2] L3]; apply Z.eqb_eq in L1, L2, L3; auto.
Qed.

(** ** Bit operations on the test double *)

Lemma chip_setclear (int16 : bool) (uninit : Z) (self : FRAM) (a i : Z)
    (c : chip) :
  i2c_addr self mod 2 = 0 -> 0 <= a < MAXADDRESS_04 -> 0 <= i <= 7 ->
  fst (setOneBit int16 uninit self a i c) = 0
  /\ mem (snd (setOneBit int16 uninit self a i c))
     = upd (mem c) a (u8 (bitSet (u8 (mem c (a mod 256))) i))
  /\ fst (clearOneBit int16 uninit self a i c) = 0
  /\ mem (snd (clearOneBit int16 uninit self a i c))
     = upd (mem c) a (u8 (bitClear (u8 (mem c (a mod 256))) i)).
Proof.
  intros Hs Ha Hi; unfold setOneBit, clearOneBit.
  replace (7 <? i) with false by (symmetry; apply Z.ltb_ge; lia).
  destruct (chip_readArray1 int16 self a uninit c Ha) as [E M].
  destruct (readArray int16 self a 1 [uninit] c) as [[r buf] c'].
  simpl in E, M; injection E as -> ->.
  change (writeArray int16 self a 1 [?b] c') with (writeByte int16 self a b c').
  rewrite !chip_writeByte by assumption; simpl.
  rewrite M, !write_addr, read_addr by (unfold MAXADDRESS_04 in *; lia).
  repeat split.
Qed.

Lemma chip_readBit (int16 : bool) (uninit : Z) (self : FRAM) (a i bit : Z)
    (c : chip) :
  i2c_addr self mod 2 = 0 -> 0 <= a < MAXADDRESS_04 -> 0 <= i <= 7 ->
  fst (readBit int16 uninit self a i bit c)
  = (0, bitRead (u8 (mem c (a mod 256))) i).
Proof.
  intros Hs Ha Hi; unfold readBit.
  replace (7 <? i) with false by (symmetry; apply Z.ltb_ge; lia).
  destruct (chip_readArray1 int16 self a uninit c Ha) as [E _].
  destruct (readArray int16 self a 1 [uninit] c) as [[r buf] c'].
  simpl in E; injection E as -> ->; simpl.
  rewrite write_addr, read_addr by (unfold MAXADDRESS_04 in *; lia).
  reflexivity.
Qed.

Lemma u8_idem (z : Z) : u8 (u8 z) = u8 z.
Proof. rewrite !u8_mod, Z.mod_mod by lia; reflexivity. Qed.

Lemma u8_range (z : Z) : 0 <= u8 z < 256.
Proof. rewrite u8_mod; apply Z.mod_pos_bound; lia. Qed.

Lemma chip_roundtrip (int16 : bool) (self : FRAM) (a : Z) (vals buf : list Z)
    (c : chip) :
  i2c_addr self mod 2 = 0 -> 0 <= a ->
  (1 <= length vals <= 255)%nat -> a + Z.of_nat (length vals) <= 256 ->
  Forall (fun x => 0 <= x < 256) vals -> length buf = length vals ->
  fst (writeArray int16 self a (Z.of_nat (length vals)) vals c) = 0
  /\ fst (readArray int16 self a (Z.of_nat (length vals)) buf
            (snd (writeArray int16 self a (Z.of_nat (length vals)) vals c)))
     = (0, vals).
Proof.
  intros Hs Ha Hn Hl Hv Hb.
  rewrite chip_writeArray by (try assumption; lia); split; [reflexivity|].
  simpl snd.
  rewrite (proj1 (chip_readArray int16 self a (Z.of_nat (length vals)) buf _
                    Hs Ha ltac:(lia) ltac:(lia)
                    ltac:(rewrite Nat2Z.id; exact Hb))); simpl.
  rewrite Nat2Z.id, Z.mod_small by lia.
  rewrite (map_u8_bytes vals Hv).
  rewrite fetch_store by lia.
  rewrite map_u8_bytes by assumption; reflexivity.
Qed.

(** [writeArray] followed by [readArray] of the same range in the lower
    page ([addr + length <= 256]) on the fault-free double gives back the
    bytes written, with status 0 for both. *)
Theorem writeArray_readArray_lower_page (int16 : bool) (self : FRAM) (a : Z)
    (vals buf : list Z) (c : chip) :
  i2c_addr self mod 2 = 0 -> 0 <= a ->
  (1 <= length vals <= 255)%nat -> a + Z.of_nat (length vals) <= 256 ->
  Forall (fun x => 0 <= x < 256) vals -> length buf = length vals ->
  fst (writeArray int16 self a (Z.of_nat (length vals)) vals c) = 0
  /\ fst (readArray int16 self a (Z.of_nat (length vals)) buf
            (snd (writeArray int16 self a (Z.of_nat (length vals)) vals c)))
     = (0, vals).
Proof. apply chip_roundtrip. Qed.

Lemma writeArray_readArray_lower_page_witness :
  fst (readArray false h0 250 3 [0; 0; 0]
         (snd (writeArray false h0 250 3 [7; 8; 9] zero_chip)))
  = (0, [7; 8; 9]).
Proof.
  destruct (writeArray_readArray_lower_page false h0 250 [7; 8; 9] [0; 0; 0]
              zero_chip eq_refl ltac:(lia) ltac:(simpl; lia) ltac:(simpl; lia)
              ltac:(repeat constructor; lia) eq_refl) as [_ E].
  exact E.
Defined.

(** [writeWord(a, v)] then [readWord(a)] in the lower page on the
    fault-free double returns [v] with status 0, for either host byte
    order. *)
Theorem writeWord_readWord_lower_page (int16 little_endian : bool)
    (self : FRAM) (a v : Z) (buffer : list Z) (c : chip) :
  i2c_addr self mod 2 = 0 -> 0 <= a -> a + 2 <= 256 -> 0 <= v < 65536 ->
  length buffer = 2%nat ->
  fst (writeWord int16 little_endian self a v c) = 0
  /\ fst (readWord int16 little_endian self a buffer
            (snd (writeWord int16 little_endian self a v c))) = (0, v).
Proof.
  intros Hs Ha Hl Hv Hb; unfold writeWord, readWord.
  destruct (host_roundtrip little_endian 2 v ltac:(simpl; lia)) as (R & L & F).
  destruct (chip_roundtrip int16 self a (host_bytes little_endian 2 v) buffer c
              Hs Ha ltac:(lia)
              ltac:(lia) F ltac:(lia)) as [W E].
  rewrite L in W, E; simpl Z.of_nat in W, E.
  split; [exact W|].
  destruct (readArray _ _ _ _ _ _) as [[r vs] c']; simpl in E |- *.
  injection E as -> ->; rewrite R; reflexivity.
Qed.

Lemma writeWord_readWord_lower_page_witness :
  fst (readWord false true h0 254 [0; 0]
         (snd (writeWord false true h0 254 4660 zero_chip))) = (0, 4660).
Proof.
  destruct (writeWord_readWord_lower_page false true h0 254 4660 [0; 0]
              zero_chip eq_refl ltac:(lia) ltac:(lia) ltac:(lia) eq_refl)
    as [_ E].
  exact E.
Defined.

(** [writeLong(a, v)] then [readLong(a)] in the lower page on the
    fault-free double returns [v] with status 0, for either host byte
    order. *)
Theorem writeLong_readLong_lower_page (int16 little_endian : bool)
    (self : FRAM) (a v : Z) (buffer : list Z) (c : chip) :
  i2c_addr self mod 2 = 0 -> 0 <= a -> a + 4 <= 256 -> 0 <= v < 4294967296 ->
  length buffer = 4%nat ->
  fst (writeLong int16 little_endian self a v c) = 0
  /\ fst (readLong int16 little_endian self a buffer
            (snd (writeLong int16 little_endian self a v c))) = (0, v).
Proof.
  intros Hs Ha Hl Hv Hb; unfold writeLong, readLong.
  destruct (host_roundtrip little_endian 4 v ltac:(simpl; lia)) as (R & L & F).
  destruct (chip_roundtrip int16 self a (host_bytes little_endian 4 v) buffer c
              Hs Ha ltac:(lia)
              ltac:(lia) F ltac:(lia)) as [W E].
  rewrite L in W, E; simpl Z.of_nat in W, E.
  split; [exact W|].
  destruct (readArray _ _ _ _ _ _) as [[r vs] c']; simpl in E |- *.
  injection E as -> ->; rewrite R; reflexivity.
Qed.

Lemma writeLong_readLong_lower_page_witness :
  fst (readLong false true h0 0 [0; 0; 0; 0]
         (snd (writeLong false true h0 0 3735928559 zero_chip)))
  = (0, 3735928559).
Proof.
  destruct (writeLong_readLong_lower_page false true h0 0 3735928559
              [0; 0; 0; 0] zero_chip eq_refl ltac:(lia) ltac:(lia) ltac:(lia)
              eq_refl) as [_ E].
  exact E.
Defined.

Section MoreBus.

Context {B : Type} `{Bus B}.

(** A 16-bit access that does not fit below 512 ([addr + 2 > 512], i.e.
    [addr >= 511]) and a 32-bit access with [addr + 4 > 512] return
    [ERROR_11] and perform no bus call; [readWord] and [readLong] then
    report the reinterpretation of their uninitialised buffer. *)
Theorem word_long_out_of_range (int16 little_endian : bool) (self : FRAM)
    (a v : Z) (buffer : list Z) (s : B) :
  0 <= a <= 65535 ->
  (MAXADDRESS_04 < a + 2 ->
     writeWord int16 little_endian self a v s = (ERROR_11, s)
     /\ readWord int16 little_endian self a buffer s
        = ((ERROR_11, host_value little_endian buffer), s))
  /\ (MAXADDRESS_04 < a + 4 ->
     writeLong int16 little_endian self a v s = (ERROR_11, s)
     /\ readLong int16 little_endian self a buffer s
        = ((ERROR_11, host_value little_endian buffer), s)).
Proof.
  intros Ha; unfold writeWord, readWord, writeLong, readLong, writeArray,
    readArray; split; intros Hr;
    rewrite out_of_range_true by (try assumption; lia); split; reflexivity.
Qed.

(** [writeArray] with [items = 0] at an address [1 <= addr < 512] is not
    rejected: it sends a transaction with the sub-address byte only and
    returns its end status; on the fault-free double it returns 0 and
    leaves the memory unchanged. *)
Theorem writeArray_zero_items (int16 : bool) (self : FRAM) (a : Z)
    (vals : list Z) (s : B) :
  1 <= a < MAXADDRESS_04 ->
  writeArray int16 self a 0 vals s
  = endTransmission (wire_write (Z.land a 255)
                       (beginTransmission (selector self a) s))
  /\ forall c : chip,
       fst (writeArray int16 self a 0 vals c) = 0
       /\ mem (snd (writeArray int16 self a 0 vals c)) = mem c.
Proof.
  intros Ha; unfold writeArray.
  rewrite out_of_range_false by lia; split; [reflexivity|].
  intros c; simpl; unfold chip_end, chip_write, chip_begin; simpl.
  split; reflexivity.
Qed.

End MoreBus.

Lemma word_long_out_of_range_witness :
  writeWord false true h0 511 4660 zero_chip = (ERROR_11, zero_chip).
Proof.
  destruct (word_long_out_of_range false true h0 511 4660 [0; 0] zero_chip
              ltac:(lia)) as [W _].
  apply W; unfold MAXADDRESS_04; lia.
Defined.

Lemma writeArray_zero_items_witness :
  fst (writeArray true h0 5 0 [] zero_chip) = 0.
Proof.
  destruct (writeArray_zero_items true h0 5 [] zero_chip
              ltac:(unfold MAXADDRESS_04; lia)) as [_ E].
  apply E.
Defined.

(** [copyByte(src, dst)] with [src] in the lower page and [dst] in range,
    on the fault-free double, returns 0 and changes exactly the byte at
    [dst], to the byte at [src]. *)
Theorem copyByte_lower_page (int16 : bool) (uninit : Z) (self : FRAM)
    (src dst : Z) (c : chip) :
  i2c_addr self mod 2 = 0 -> 0 <= src < 256 -> 0 <= dst < MAXADDRESS_04 ->
  fst (copyByte int16 uninit self src dst c) = 0
  /\ mem (snd (copyByte int16 uninit self src dst c))
     = upd (mem c) dst (u8 (mem c src)).
Proof.
  intros Hs Hsrc Hdst; unfold copyByte, readByte.
  destruct (chip_readArray1 int16 self src uninit c
              ltac:(unfold MAXADDRESS_04; lia)) as [E M].
  destruct (readArray int16 self src 1 [uninit] c) as [[r buf] c'].
  simpl in E, M; injection E as -> ->; simpl.
  rewrite chip_writeByte by assumption; simpl.
  rewrite M, !write_addr, read_addr by (unfold MAXADDRESS_04 in *; lia).
  rewrite (Z.mod_small src 256), u8_idem by lia.
  split; reflexivity.
Qed.

Lemma copyByte_lower_page_witness :
  fst (copyByte false 0 h0 3 400 zero_chip) = 0.
Proof.
  destruct (copyByte_lower_page false 0 h0 3 400 zero_chip eq_refl
              ltac:(lia) ltac:(unfold MAXADDRESS_04; lia)) as [E _].
  exact E.
Defined.

(** [copyByte(src, dst)] with [src >= 512]: the read fails with
    [ERROR_11] without bus activity, but [copyByte] still writes the
    uninitialised buffer byte to [dst] and, on the fault-free double,
    returns 0. *)
Theorem copyByte_bad_source (int16 : bool) (uninit : Z) (self : FRAM)
    (src dst : Z) (c : chip) :
  i2c_addr self mod 2 = 0 -> MAXADDRESS_04 <= src <= 65535 ->
  0 <= dst < MAXADDRESS_04 ->
  fst (copyByte int16 uninit self src dst c) = 0
  /\ mem (snd (copyByte int16 uninit self src dst c))
     = upd (mem c) dst (u8 uninit).
Proof.
  intros Hs Hsrc Hdst; unfold copyByte, readByte, readArray.
  rewrite out_of_range_true by (unfold MAXADDRESS_04 in *; lia); simpl.
  rewrite chip_writeByte by assumption; simpl.
  rewrite write_addr by (unfold MAXADDRESS_04 in *; lia).
  split; reflexivity.
Qed.

Lemma copyByte_bad_source_witness :
  mem (snd (copyByte false 77 h0 600 10 zero_chip)) 10 = 77.
Proof.
  destruct (copyByte_bad_source false 77 h0 600 10 zero_chip eq_refl
              ltac:(unfold MAXADDRESS_04; lia) ltac:(unfold MAXADDRESS_04; lia))
    as [_ E].
  rewrite E; reflexivity.
Defined.

(** [setOneBit(addr, i)] then [readBit(addr, i)] on the fault-free double
    (lower page): the bit reads 1, and every other bit of the byte reads
    as it did before. *)
Theorem setOneBit_readBit (int16 : bool) (uninit : Z) (self : FRAM)
    (a i bit : Z) (c : chip) :
  i2c_addr self mod 2 = 0 -> 0 <= a < 256 -> 0 <= i <= 7 ->
  fst (readBit int16 uninit self a i bit
         (snd (setOneBit int16 uninit self a i c))) = (0, 1)
  /\ forall j, 0 <= j <= 7 -> j <> i ->
       fst (readBit int16 uninit self a j bit
              (snd (setOneBit int16 uninit self a i c)))
       = fst (readBit int16 uninit self a j bit c).
Proof.
  intros Hs Ha Hi.
  destruct (chip_setclear int16 uninit self a i c Hs
              ltac:(unfold MAXADDRESS_04; lia) Hi) as (_ & M & _).
  assert (Am : a mod 256 = a) by (apply Z.mod_small; lia).
  pose proof (bit_ops_spec (u8 (mem c a)) i (u8_range _) Hi)
    as (S1 & _ & _ & _ & Sj).
  split; [|intros j Hj Hji];
    rewrite !chip_readBit by (try assumption; unfold MAXADDRESS_04; lia);
    rewrite M; unfold upd; rewrite !Am, Z.eqb_refl, u8_idem.
  - rewrite S1; reflexivity.
  - destruct (Sj j Hj Hji) as (E & _ & _); rewrite E; reflexivity.
Qed.

Lemma setOneBit_readBit_witness :
  fst (readBit false 0 h0 7 3 0 (snd (setOneBit false 0 h0 7 3 zero_chip)))
  = (0, 1).
Proof.
  destruct (setOneBit_readBit false 0 h0 7 3 0 zero_chip eq_refl
              ltac:(lia) ltac:(lia)) as [E _].
  exact E.
Defined.

(** [clearOneBit(addr, i)] then [readBit(addr, i)] on the fault-free
    double (lower page): the bit reads 0, and every other bit of the byte
    reads as it did before. *)
Theorem clearOneBit_readBit (int16 : bool) (uninit : Z) (self : FRAM)
    (a i bit : Z) (c : chip) :
  i2c_addr self mod 2 = 0 -> 0 <= a < 256 -> 0 <= i <= 7 ->
  fst (readBit int16 uninit self a i bit
         (snd (clearOneBit int16 uninit self a i c))) = (0, 0)
  /\ forall j, 0 <= j <= 7 -> j <> i ->
       fst (readBit int16 uninit self a j bit
              (snd (clearOneBit int16 uninit self a i c)))
       = fst (readBit int16 uninit self a j bit c).
Proof.
  intros Hs Ha Hi.
  destruct (chip_setclear int16 uninit self a i c Hs
              ltac:(unfold MAXADDRESS_04; lia) Hi) as (_ & _ & _ & M).
  assert (Am : a mod 256 = a) by (apply Z.mod_small; lia).
  pose proof (bit_ops_spec (u8 (mem c a)) i (u8_range _) Hi)
    as (_ & C1 & _ & _ & Sj).
  split; [|intros j Hj Hji];
    rewrite !chip_readBit by (try assumption; unfold MAXADDRESS_04; lia);
    rewrite M; unfold upd; rewrite !Am, Z.eqb_refl, u8_idem.
  - rewrite C1; reflexivity.
  - destruct (Sj j Hj Hji) as (_ & E & _); rewrite E; reflexivity.
Qed.

Lemma clearOneBit_readBit_witness :
  fst (readBit false 0 h0 7 3 0 (snd (clearOneBit false 0 h0 7 3 zero_chip)))
  = (0, 0).
Proof.
  destruct (clearOneBit_readBit false 0 h0 7 3 0 zero_chip eq_refl
              ltac:(lia) ltac:(lia)) as [E _].
  exact E.
Defined.

(** [toggleBit(addr, i)] on the fault-free double (lower page): afterwards
    [readBit(addr, i)] returns the complement of the bit read before, and
    toggling the same bit twice leaves every byte as it was (the byte at
    [addr] reduced to 8 bits). *)
Theorem toggleBit_lower_page (int16 : bool) (uninit : Z) (self : FRAM)
    (a i bit : Z) (c : chip) :
  i2c_addr self mod 2 = 0 -> 0 <= a < 256 -> 0 <= i <= 7 ->
  fst (readBit int16 uninit self a i bit
         (snd (toggleBit int16 uninit self a i c)))
  = (0, 1 - snd (fst (readBit int16 uninit self a i bit c)))
  /\ forall x,
       mem (snd (toggleBit int16 uninit self a i
                   (snd (toggleBit int16 uninit self a i c)))) x
       = if x =? a then u8 (mem c a) else mem c x.
Proof.
  intros Hs Ha Hi.
  assert (Ha' : 0 <= a < MAXADDRESS_04) by (unfold MAXADDRESS_04; lia).
  assert (Am : a mod 256 = a) by (apply Z.mod_small; lia).
  pose proof (bit_ops_spec (u8 (mem c a)) i (u8_range _) Hi)
    as (_ & _ & T1 & T2 & _).
  split.
  - rewrite !chip_readBit by assumption.
    rewrite (chip_toggleBit int16 uninit self a i c Hs Ha' Hi).
    unfold upd; rewrite !Am, Z.eqb_refl, u8_idem.
    rewrite T1; reflexivity.
  - intros x.
    rewrite (chip_toggleBit int16 uninit self a i _ Hs Ha' Hi).
    rewrite (chip_toggleBit int16 uninit self a i c Hs Ha' Hi).
    unfold upd; rewrite !Am, Z.eqb_refl, u8_idem.
    rewrite T2.
    destruct (x =? a); reflexivity.
Qed.

Lemma toggleBit_lower_page_witness :
  fst (readBit false 0 h0 7 3 0 (snd (toggleBit false 0 h0 7 3 zero_chip)))
  = (0, 1).
Proof.
  destruct (toggleBit_lower_page false 0 h0 7 3 0 zero_chip eq_refl
              ltac:(lia) ltac:(lia)) as [E _].
  exact E.
Defined.

Lemma skipn_update {A} (i n : nat) (l : list A) (x : A) :
  (i < length l)%nat ->
  skipn (S i + n) (firstn i l ++ [x] ++ skipn (S i) l) = skipn (S i + n) l.
Proof.
  intros Hi. rewrite app_assoc, skipn_app.
  rewrite skipn_all2 by (rewrite length_app, firstn_length_le by lia; simpl; lia).
  rewrite length_app, firstn_length_le by lia.
  cbn [length app]; rewrite skipn_skipn; f_equal; lia.
Qed.

Lemma length_update {A} (i : nat) (l : list A) (x : A) :
  (i < length l)%nat ->
  length (firstn i l ++ [x] ++ skipn (S i) l) = length l.
Proof.
  intros Hi; rewrite !length_app, firstn_length_le, length_skipn by lia;
    simpl; lia.
Qed.

Section ReadShape.

Context {B : Type} `{Bus B}.

(** The read loop stores into [values[i .. i+n-1]] only. *)
Lemma read_loop_shape (n : nat) :
  forall (i : nat) (values : list Z) (s : B),
  (i + n <= length values)%nat ->
  length (fst (read_loop i n values s)) = length values
  /\ skipn (i + n) (fst (read_loop i n values s)) = skipn (i + n) values.
Proof.
  induction n as [|n IH]; intros i values s Hn; [split; reflexivity|].
  cbn [read_loop]; destruct (wire_read s) as [r s'].
  destruct (IH (S i) (firstn i values ++ [u8 r] ++ skipn (S i) values) s')
    as [L K]; [rewrite length_update; lia|].
  rewrite length_update in L by lia.
  replace (i + S n)%nat with (S i + n)%nat by lia.
  rewrite K, skipn_update by lia; split; [exact L | reflexivity].
Qed.

(** On any bus, [readArray(addr, items, values)] stores into
    [values[0 .. items-1]] only: whatever its status, the array keeps its
    length and every element from index [items] on is left as it was. *)
Theorem readArray_writes_prefix_only (int16 : bool) (self : FRAM)
    (a items : Z) (values : list Z) (s : B) :
  (Z.to_nat items <= length values)%nat ->
  length (snd (fst (readArray int16 self a items values s))) = length values
  /\ skipn (Z.to_nat items) (snd (fst (readArray int16 self a items values s)))
     = skipn (Z.to_nat items) values.
Proof.
  intros Hn; unfold readArray.
  destruct (out_of_range int16 a items); [split; reflexivity|].
  destruct (items =? 0); [split; reflexivity|].
  destruct (endTransmission _) as [r s1].
  destruct (requestFrom _ _ _) as [q s2].
  destruct (read_loop_shape (Z.to_nat items) 0 values s2 Hn) as [L K].
  destruct (read_loop 0 (Z.to_nat items) values s2) as [v s3].
  simpl in L, K |- *; split; assumption.
Qed.

End ReadShape.

Lemma readArray_writes_prefix_only_witness :
  skipn 2 (snd (fst (readArray false h0 10 2 [9; 9; 7; 8] zero_chip)))
  = [7; 8].
Proof.
  destruct (readArray_writes_prefix_only false h0 10 2 [9; 9; 7; 8] zero_chip
              ltac:(simpl; lia)) as [_ K].
  exact K.
Defined.

Lemma fetch_ext (n : nat) :
  forall (a : Z) (m1 m2 : Z -> Z), 0 <= a -> a + Z.of_nat n <= 512 ->
  (forall k, a <= k < a + Z.of_nat n -> m1 k = m2 k) ->
  fetch a n m1 = fetch a n m2.
Proof.
  induction n as [|n IH]; intros a m1 m2 Ha Hn E; [reflexivity|].
  simpl fetch; rewrite E by lia; f_equal.
  destruct n as [|n']; [reflexivity|].
  rewrite Z.mod_small by lia; apply IH; intros; try apply E; lia.
Qed.

(** On the fault-free double, an in-range [writeArray] into the upper
    page ([addr >= 256]) succeeds, but a [readArray] of the same range
    afterwards returns the bytes that were at [addr - 256] before the
    write, not the bytes written: the read phase never selects the upper
    page. *)
Theorem writeArray_readArray_upper_page (int16 : bool) (self : FRAM) (a : Z)
    (vals buf : list Z) (c : chip) :
  i2c_addr self mod 2 = 0 -> 256 <= a ->
  (1 <= length vals <= 255)%nat -> a + Z.of_nat (length vals) <= 512 ->
  length buf = length vals ->
  fst (writeArray int16 self a (Z.of_nat (length vals)) vals c) = 0
  /\ fst (readArray int16 self a (Z.of_nat (length vals)) buf
            (snd (writeArray int16 self a (Z.of_nat (length vals)) vals c)))
     = (0, map u8 (fetch (a - 256) (length vals) (mem c))).
Proof.
  intros Hs Ha Hn Hl Hb.
  rewrite chip_writeArray by (try assumption; lia); split; [reflexivity|].
  simpl snd.
  rewrite (proj1 (chip_readArray int16 self a (Z.of_nat (length vals)) buf
                    (mkChip (store a (map u8 vals) (mem c))
                       ((a + Z.of_nat (length vals)) mod 512) (selector self a)
                       [] (rxbuf c) (log c ++ write_trace self a vals))
                    Hs ltac:(lia) ltac:(lia) Hl ltac:(rewrite Nat2Z.id; exact Hb))).
  simpl mem; rewrite Nat2Z.id.
  replace (a mod 256) with (a - 256)
    by (rewrite <- (Z.mod_add _ (-1) 256) by lia; rewrite Z.mod_small by lia; lia).
  f_equal; f_equal; apply fetch_ext; try lia.
  intros k Hk; apply store_outside; rewrite ?length_map; lia.
Qed.

Lemma writeArray_readArray_upper_page_witness :
  fst (readArray false h0 300 2 [0; 0]
         (snd (writeArray false h0 300 2 [5; 6] zero_chip))) = (0, [0; 0]).
Proof.
  destruct (writeArray_readArray_upper_page false h0 300 [5; 6] [0; 0]
              zero_chip eq_refl ltac:(lia) ltac:(simpl; lia) ltac:(simpl; lia)
              eq_refl) as [_ E].
  exact E.
Defined.
